(** * Numba Basics notebook: the example functions and their properties

    The notebook defines a scalar [hypot], a dictionary lookup
    [cannot_compile] and an array loop [ex1] (twice), and runs them both
    through the interpreter ([py_func]) and through the [jit] dispatcher.

    Python floats are IEEE-754 binary64 values; they are modelled by the
    executable specification [spec_float] of the Rocq library, instantiated
    at precision 53 and maximal exponent 1024. *)

From Corelib Require Import SpecFloat.
From stdpp Require Import base option list functions strings gmap.
From Stdlib Require Import ZArith Lia.

Local Open Scope Z_scope.

(** ** Exceptions and results *)

Inductive exn : Type :=
  | ZeroDivisionError
  | ValueError
  | IndexError
  | KeyError
  | TypeError
  | TypingError
  | AssertionError.

Inductive result (A : Type) : Type :=
  | Ok (a : A)
  | Raise (e : exn).
Arguments Ok {A} a.
Arguments Raise {A} e.

#[global] Instance result_ret : MRet result := fun A a => Ok a.
#[global] Instance result_bind : MBind result := fun A B k r =>
  match r with
  | Ok a => k a
  | Raise e => Raise e
  end.

(** ** Python floats *)

Module Float.

Definition prec : Z := 53.
Definition emax : Z := 1024.

Abbreviation float := spec_float.

(** Conversion of a Python [int] to a [float] (round to nearest even). *)
Definition of_int (z : Z) : float := binary_normalize prec emax z 0 false.

Definition zero : float := S754_zero false.
Definition nan : float := S754_nan.

Definition abs : float → float := SFabs.
Definition add : float → float → float := SFadd prec emax.
Definition sub : float → float → float := SFsub prec emax.
Definition mul : float → float → float := SFmul prec emax.
Definition div : float → float → float := SFdiv prec emax.
Definition sqrt : float → float := SFsqrt prec emax.
Definition ltb : float → float → bool := SFltb.
Definition eqb : float → float → bool := SFeqb.

Definition is_nan (x : float) : bool :=
  match x with S754_nan => true | _ => false end.

(** Sign bit set on a number that is not a zero: [x < 0.0]. *)
Definition is_negative (x : float) : bool := ltb x zero.

End Float.

Import Float.

(** ** The interpreter's primitives on floats

    [min(a, b)] keeps [a] unless [b < a]; [max(a, b)] keeps [a] unless
    [b > a]; so a NaN in second position is never selected and a NaN in
    first position is always kept. *)

Definition py_min (a b : float) : float := if ltb b a then b else a.
Definition py_max (a b : float) : float := if ltb a b then b else a.

(** [a / b] on floats raises [ZeroDivisionError] when [b == 0.0]. *)
Definition py_truediv (a b : float) : result float :=
  if eqb b zero then Raise ZeroDivisionError else Ok (div a b).

(** [math.sqrt] raises [ValueError] (math domain error) on a negative
    argument; NaN and +inf pass through. *)
Definition math_sqrt (a : float) : result float :=
  if is_negative a then Raise ValueError else Ok (sqrt a).

(** ** [hypot], as written in the notebook (this is [hypot.py_func]) *)

Definition hypot (x y : float) : result float :=
  let x := abs x in
  let y := abs y in
  let t := py_min x y in
  let x := py_max x y in
  t ← py_truediv t x;
  s ← math_sqrt (add (of_int 1) (mul t t));
  Ok (mul x s).

(** ** The compiled specialisation of [hypot]

    [hypot.inspect_types()] prints the typed intermediate representation
    of the one specialisation the notebook compiles, for the signature
    [(float64, float64)].  It is transcribed below, one binding per IR
    assignment, with the IR's variable names ([$0.3] is written [_0_3],
    [x.1] is written [x_1]). *)

Module Numba.

Inductive type : Type := float64 | int64 | unicode_type.

(** Modelled from the spec: the code generator of the external compiler
    is not part of the repository.  Each operation of the typed IR
    is given its IEEE binary64 meaning: [abs] clears the sign, [min] and
    [max] select on one ordered comparison like the interpreter does,
    [/] keeps the interpreter's check for a zero divisor (the
    compiler's default error model), [math.sqrt] is the hardware square
    root and raises nothing, and an [int64] operand of a [float64]
    addition is converted first. *)
Definition abs_float64 (a : float) : float := abs a.
Definition min_float64 (a b : float) : float := if ltb b a then b else a.
Definition max_float64 (a b : float) : float := if ltb a b then b else a.
Definition truediv_float64 (a b : float) : result float :=
  if eqb b zero then Raise ZeroDivisionError else Ok (div a b).
Definition mul_float64 (a b : float) : float := mul a b.
Definition sqrt_float64 (a : float) : float := sqrt a.
Definition int64_to_float64 (c : Z) : float := of_int c.
Definition add_int64_float64 (c : Z) (a : float) : float :=
  add (int64_to_float64 c) a.

End Numba.

Definition hypot_float64_float64 (x y : float) : result float :=
  (* LINE 7 *)
  let _0_3 := Numba.abs_float64 x in
  let x_1 := _0_3 in
  (* LINE 8 *)
  let _0_6 := Numba.abs_float64 y in
  let y_1 := _0_6 in
  (* LINE 9 *)
  let _0_10 := Numba.min_float64 x_1 y_1 in
  let t := _0_10 in
  (* LINE 10 *)
  let _0_14 := Numba.max_float64 x_1 y_1 in
  let x_2 := _0_14 in
  (* LINE 11 *)
  _0_17 ← Numba.truediv_float64 t x_2;
  let t_1 := _0_17 in
  (* LINE 12 *)
  let _const0_21 := 1%Z in
  let _0_24 := Numba.mul_float64 t_1 t_1 in
  let _0_25 := Numba.add_int64_float64 _const0_21 _0_24 in
  let _0_26 := Numba.sqrt_float64 _0_25 in
  let _0_27 := Numba.mul_float64 x_2 _0_26 in
  let _0_28 := _0_27 in
  Ok _0_28.

(** ** The [jit] dispatcher *)

(** Modelled from the spec: the decorator [jit] belongs to the external
    compiler.  It "accepts a function and optional compilation-mode
    flags, and returns a callable that type-specializes on first
    invocation"; strict mode "fails loudly when argument types cannot be
    resolved, instead of silently falling back to an untyped execution
    path".  A dispatcher keeps the original function ([py_func]), the
    [nopython] flag, the typing of its arguments and the specialisations
    the compiler can produce.  A call whose arguments cannot be typed, or
    for whose signature nothing compiles, raises [TypingError] in strict
    mode and runs [py_func] otherwise. *)
Record Dispatcher (A B : Type) : Type := {
  py_func : A → result B;
  nopython : bool;
  typeof_args : A → option (list Numba.type);
  compile : list Numba.type → option (A → result B)
}.
Arguments py_func {A B} d.
Arguments nopython {A B} d.
Arguments typeof_args {A B} d.
Arguments compile {A B} d.

(** Modelled from the spec: the untyped execution path of the external
    compiler, which strict mode forbids. *)
Definition object_mode {A B : Type} (d : Dispatcher A B) (a : A) : result B :=
  if nopython d then Raise TypingError else py_func d a.

(** Modelled from the spec: a call of the callable that [jit] returns;
    it specialises on the types of the arguments. *)
Definition call {A B : Type} (d : Dispatcher A B) (a : A) : result B :=
  match typeof_args d a with
  | Some sig =>
      match compile d sig with
      | Some native => native a
      | None => object_mode d a
      end
  | None => object_mode d a
  end.

(** [@jit def hypot(x, y)], called on two floats: the arguments are typed
    [(float64, float64)], the signature whose specialisation
    [inspect_types] shows. *)
Definition hypot_jit : Dispatcher (float * float) float := {|
  py_func := fun a => hypot a.1 a.2;
  nopython := false;
  typeof_args := fun _ => Some [Numba.float64; Numba.float64];
  compile := fun sig =>
    match sig with
    | [Numba.float64; Numba.float64] => Some (fun a => hypot_float64_float64 a.1 a.2)
    | _ => None
    end
|}.

(** ** Python objects for [cannot_compile] *)

#[warnings="-register-all"] Inductive pyobject : Type :=
  | PyFloat (f : float)
  | PyStr (s : string)
  | PyDict (d : gmap string pyobject).

(** [x[key]] for a string key. *)
Definition getitem_str (x : pyobject) (key : string) : result pyobject :=
  match x with
  | PyDict d =>
      match d !! key with
      | Some v => Ok v
      | None => Raise KeyError
      end
  | PyStr _ | PyFloat _ => Raise TypeError
  end.

Definition cannot_compile (x : pyobject) : result pyobject :=
  getitem_str x "key".

(** Modelled from the spec: typing of a call argument by the external
    compiler.  The recorded error reads "cannot determine Numba type of
    <class 'dict'>"; floats are typed [float64] (the header printed by
    [inspect_types]). *)
Definition typeof_pyval (x : pyobject) : option Numba.type :=
  match x with
  | PyFloat _ => Some Numba.float64
  | PyStr _ => Some Numba.unicode_type
  | PyDict _ => None
  end.

(** [@jit def cannot_compile(x)] and [@jit(nopython=True) def
    cannot_compile(x)]; nothing is known of what the compiler can
    specialise this function for, so that is left open. *)
Definition cannot_compile_jit (strict : bool)
    (specialisations : list Numba.type → option (pyobject → result pyobject))
    : Dispatcher pyobject pyobject := {|
  py_func := cannot_compile;
  nopython := strict;
  typeof_args := fun x => ty ← typeof_pyval x; Some [ty];
  compile := specialisations
|}.

(** [dict(key='value')] *)
Definition the_dict : pyobject := PyDict {[ "key" := PyStr "value" ]}.

(** ** NumPy arrays

    A one-dimensional [float64] array is a view: the address of its first
    element in a flat memory of [float64] cells, and its length.  Two
    views may name the same cells (the same array passed twice, or
    overlapping slices of one buffer). *)

Definition memory : Type := nat → float.

Record ndarray : Type := { data : nat; shape0 : nat }.

(** Element [i] of the view [a] in memory [m]. *)
Definition cell (a : ndarray) (i : nat) (m : memory) : float :=
  m (data a + i)%nat.

(** The contents of the view [a] in memory [m]. *)
Definition read (a : ndarray) (m : memory) : list float :=
  map (fun i => cell a i m) (seq 0 (shape0 a)).

(** Statements run on the memory and either complete or raise; what was
    written before an exception stays written. *)
Definition M (A : Type) : Type := memory → result A * memory.

#[global] Instance M_ret : MRet M := fun A a m => (Ok a, m).
#[global] Instance M_bind : MBind M := fun A B k c m =>
  match c m with
  | (Ok a, m') => k a m'
  | (Raise e, m') => (Raise e, m')
  end.

Definition lift {A : Type} (r : result A) : M A := fun m => (r, m).

(** [a[i]] for [i >= 0], with the interpreter's bounds check: an index at
    or beyond the length raises [IndexError]. *)
Definition getitem (a : ndarray) (i : nat) : M float := fun m =>
  if decide (i < shape0 a)%nat then (Ok (cell a i m), m)
  else (Raise IndexError, m).

(** [a[i] = v] *)
Definition setitem (a : ndarray) (i : nat) (v : float) : M unit := fun m =>
  if decide (i < shape0 a)%nat then (Ok tt, <[(data a + i)%nat := v]> m)
  else (Raise IndexError, m).

(** [for i in range(...): body] over the indices the range yields. *)
Fixpoint for_range (l : list nat) (body : nat → M unit) : M unit :=
  match l with
  | [] => mret tt
  | i :: l' => _ ← body i; for_range l' body
  end.

Definition range (n : nat) : list nat := seq 0 n.

(** ** [ex1], as handed out: the element-wise sum *)

Module Exercise.

Definition ex1 (x y out : ndarray) : M unit :=
  for_range (range (shape0 x)) (fun i =>
    xi ← getitem x i;
    yi ← getitem y i;
    setitem out i (add xi yi)).

End Exercise.

(** ** [ex1], as redefined in the next cell: it calls [hypot]

    This is the definition in force when the notebook runs [ex1]; the
    name [hypot] in its body is the dispatcher that [@jit] returned. *)

Module Solved.

Definition ex1 (x y out : ndarray) : M unit :=
  for_range (range (shape0 x)) (fun i =>
    xi ← getitem x i;
    yi ← getitem y i;
    v ← lift (call hypot_jit (xi, yi));
    setitem out i v).

End Solved.

(** The two definitions of [ex1] differ only in the operation applied to
    [x[i]] and [y[i]]; [loop_body op] is their common loop body. *)
Definition loop_body (op : float → float → result float)
    (x y out : ndarray) (i : nat) : M unit :=
  xi ← getitem x i;
  yi ← getitem y i;
  v ← lift (op xi yi);
  setitem out i v.

(** The first [n] entries of [out] and the array [a] have no cell in
    common. *)
Definition no_shared_cell (out : ndarray) (n : nat) (a : ndarray) : Prop :=
  ∀ i j, (i < n)%nat → (j < shape0 a)%nat → (data out + i)%nat ≠ (data a + j)%nat.

(** ** The cells that run and check [ex1] *)

(** Writes the list [l] at address [p]. *)
Definition write_array (p : nat) (l : list float) (m : memory) : memory :=
  fun q =>
    if decide (p ≤ q < p + length l)%nat then default (m q) (l !! (q - p)%nat)
    else m q.

(** [np.arange(n, dtype=np.float64)] *)
Definition arange (n : nat) : list float :=
  map (fun i => of_int (Z.of_nat i)) (seq 0 n).

Definition in1 : ndarray := {| data := 0; shape0 := 10 |}.
Definition in2 : ndarray := {| data := 10; shape0 := 10 |}.
Definition out : ndarray := {| data := 20; shape0 := 10 |}.

(** The cell that builds the inputs and calls [ex1]; the three arrays are
    fresh allocations, laid out one after the other, and [np.empty_like]
    leaves in [out] whatever the memory [m0] held. *)
Definition run_ex1 (m0 : memory) : result unit * memory :=
  let m1 := write_array (data in1) (arange 10) m0 in
  let m2 :=
    write_array (data in2)
      (map (fun v => add (mul (of_int 2) v) (of_int 1)) (read in1 m1)) m1 in
  Solved.ex1 in1 in2 out m2.

(** Modelled from the spec: the "library-provided reference function"
    [np.hypot] is not in the repository; its documentation gives it as
    equivalent to [sqrt(x1**2 + x2**2)], element-wise. *)
Definition np_hypot (x1 x2 : list float) : list float :=
  zip_with (fun a b => sqrt (add (mul a a) (mul b b))) x1 x2.

(** Modelled from the spec: [np.testing.assert_almost_equal] is library
    code; with its default of 7 decimals it accepts arrays of one shape
    whose elements satisfy [abs(desired - actual) < 1.5 * 10**(-7)]. *)
Definition tolerance : float :=
  mul (div (of_int 3) (of_int 2)) (div (of_int 1) (of_int 10000000)).

(** Modelled from the spec: the element-wise test of
    [assert_almost_equal]. *)
Definition almost_equal (actual desired : float) : bool :=
  ltb (abs (sub desired actual)) tolerance.

(** Modelled from the spec: [assert_almost_equal] on two arrays raises
    [AssertionError] on a shape mismatch or on an element that fails the
    test. *)
Definition assert_almost_equal (actual desired : list float) : result unit :=
  if decide (length actual = length desired) then
    if forallb (fun ad => almost_equal ad.1 ad.2) (zip actual desired)
    then Ok tt else Raise AssertionError
  else Raise AssertionError.

(** ** Small inputs used as examples *)

(** Three arrays of one element each, at addresses 0, 1 and 2, holding
    3.0, 4.0 and 0.0. *)
Definition a3 : ndarray := {| data := 0; shape0 := 1 |}.
Definition a4 : ndarray := {| data := 1; shape0 := 1 |}.
Definition a0 : ndarray := {| data := 2; shape0 := 1 |}.
Definition mem_3_4_0 : memory :=
  write_array 0 [of_int 3; of_int 4; of_int 0] (fun _ => nan).

(** A buffer [b] of three cells holding 1.0, and its overlapping slices
    [b[0:2]] and [b[1:3]]. *)
Definition b_0_2 : ndarray := {| data := 0; shape0 := 2 |}.
Definition b_1_3 : ndarray := {| data := 1; shape0 := 2 |}.
Definition mem_ones : memory :=
  write_array 0 [of_int 1; of_int 1; of_int 1] (fun _ => nan).

(** ** Classes of floats and further small inputs *)

(** [-x] on a float. *)
Definition opp : float → float := SFopp.

(** [x == 0.0]: a zero of either sign. *)
Definition is_zero (x : float) : bool :=
  match x with S754_zero _ => true | _ => false end.

(** [math.isfinite(x)]: a zero or a finite number. *)
Definition is_finite (x : float) : bool :=
  match x with S754_zero _ | S754_finite _ _ _ => true | _ => false end.

(** The representable binary64 values: a finite number has a canonical
    mantissa and an exponent in range. *)
Definition is_binary64 (x : float) : bool := valid_binary prec emax x.

(** No cell that the loop writes at an index [i] is a cell of [a] that it
    reads at a later index [j]. *)
Definition no_overwrite_ahead (out a : ndarray) (n : nat) : Prop :=
  ∀ i j, (i < j)%nat → (j < n)%nat → (data out + i)%nat ≠ (data a + j)%nat.

(** Two-element arrays at addresses 2 and 3 and at address 4, and two
    memories for them. *)
Definition v_2_4 : ndarray := {| data := 2; shape0 := 2 |}.
Definition v_3_5 : ndarray := {| data := 3; shape0 := 2 |}.
Definition v_4_6 : ndarray := {| data := 4; shape0 := 2 |}.
Definition mem_five : memory :=
  write_array 0 [of_int 1; of_int 2; of_int 3; of_int 4; of_int 5]
    (fun _ => nan).
Definition mem_zero_pair : memory :=
  write_array 0 [of_int 3; of_int 0; of_int 4; of_int 0; of_int 9; of_int 9]
    (fun _ => nan).

(** * Properties *)

(** ** Signs of rounded results *)

Definition signed_as (s : bool) (x : float) : Prop :=
  match x with
  | S754_zero s' | S754_infinity s' | S754_finite s' _ _ => s' = s
  | S754_nan => True
  end.

Lemma binary_round_aux_sign s m e l :
  signed_as s (binary_round_aux prec emax s m e l).
Proof.
  unfold binary_round_aux.
  destruct (shr_fexp prec emax m e l) as [mrs' e'].
  destruct (shr_fexp prec emax _ e' loc_Exact) as [mrs'' e''].
  destruct (shr_m mrs''); simpl; trivial.
  destruct (Z.leb e'' _); reflexivity.
Qed.

Lemma binary_round_sign s m e :
  signed_as s (binary_round prec emax s m e).
Proof.
  unfold binary_round.
  destruct (shl_align m e _) as [mz ez].
  apply binary_round_aux_sign.
Qed.

Lemma signed_as_false_not_negative x :
  signed_as false x → is_negative x = false.
Proof. destruct x as [s|s| |s m e]; simpl; intros H; subst; reflexivity. Qed.

Lemma mul_self_sign t : signed_as false (mul t t).
Proof.
  destruct t as [s|s| |s m e]; cbn.
  - apply xorb_nilpotent.
  - apply xorb_nilpotent.
  - exact I.
  - rewrite xorb_nilpotent. apply binary_round_aux_sign.
Qed.

Lemma of_int_1 : of_int 1 = S754_finite false 4503599627370496 (-52).
Proof. vm_compute. reflexivity. Qed.

Lemma add_one_sign z : signed_as false z → signed_as false (add (of_int 1) z).
Proof.
  rewrite of_int_1.
  destruct z as [s|s| |s m e]; simpl; trivial.
  intros ->. unfold add, SFadd, cond_Zopp.
  rewrite <- Pos2Z.inj_add. apply binary_round_sign.
Qed.

(** The argument handed to [math.sqrt] by [hypot] is never negative, so
    the domain error of [math.sqrt] cannot occur there. *)
Lemma math_sqrt_one_plus_square t :
  math_sqrt (add (of_int 1) (mul t t)) = Ok (sqrt (add (of_int 1) (mul t t))).
Proof.
  unfold math_sqrt.
  rewrite signed_as_false_not_negative; [reflexivity|].
  apply add_one_sign, mul_self_sign.
Qed.

(** ** [hypot]: interpreter against compiled specialisation *)

Lemma hypot_float64_float64_spec x y :
  hypot_float64_float64 x y = hypot x y.
Proof.
  unfold hypot_float64_float64, hypot.
  unfold Numba.abs_float64, Numba.min_float64, Numba.max_float64,
    Numba.truediv_float64, Numba.add_int64_float64, Numba.int64_to_float64,
    Numba.mul_float64, Numba.sqrt_float64.
  fold (py_min (abs x) (abs y)). fold (py_max (abs x) (abs y)).
  fold (py_truediv (py_min (abs x) (abs y)) (py_max (abs x) (abs y))).
  destruct (py_truediv _ _) as [t|e]; cbn; [|reflexivity].
  rewrite math_sqrt_one_plus_square. reflexivity.
Qed.

Lemma call_hypot_jit x y : call hypot_jit (x, y) = hypot x y.
Proof. apply hypot_float64_float64_spec. Qed.

(** When [hypot] returns and when it raises. *)
Lemma hypot_returns x y :
  eqb (py_max (abs x) (abs y)) zero = false →
  hypot x y =
    Ok (let m := py_max (abs x) (abs y) in
        let t := div (py_min (abs x) (abs y)) m in
        mul m (sqrt (add (of_int 1) (mul t t)))).
Proof.
  intros Hm. unfold hypot, py_truediv. rewrite Hm. cbn.
  rewrite math_sqrt_one_plus_square. reflexivity.
Qed.

Lemma hypot_raises x y :
  eqb (py_max (abs x) (abs y)) zero = true →
  hypot x y = Raise ZeroDivisionError.
Proof. intros Hm. unfold hypot, py_truediv. rewrite Hm. reflexivity. Qed.

(** ** Order of the arguments of [min] and [max] *)

Lemma ltb_finite_false m1 e1 m2 e2 :
  ltb (S754_finite false m1 e1) (S754_finite false m2 e2) =
  match Z.compare e1 e2 with
  | Lt => true
  | Gt => false
  | Eq => match Pos.compare m1 m2 with Lt => true | _ => false end
  end.
Proof.
  unfold ltb, SFltb, SFcompare, Pos.compare.
  destruct (Z.compare e1 e2); reflexivity.
Qed.

Lemma py_min_abs_comm x y :
  is_nan x = false → is_nan y = false →
  py_min (abs x) (abs y) = py_min (abs y) (abs x).
Proof.
  destruct x as [s|s| |s m e], y as [s'|s'| |s' m' e'];
    cbn; try discriminate; try reflexivity.
  intros _ _. unfold py_min. rewrite !ltb_finite_false.
  destruct (Z.compare_spec e' e), (Z.compare_spec e e'); try lia;
    try reflexivity.
  subst. destruct (Pos.compare_spec m' m), (Pos.compare_spec m m');
    try lia; subst; reflexivity.
Qed.

Lemma py_max_abs_comm x y :
  is_nan x = false → is_nan y = false →
  py_max (abs x) (abs y) = py_max (abs y) (abs x).
Proof.
  destruct x as [s|s| |s m e], y as [s'|s'| |s' m' e'];
    cbn; try discriminate; try reflexivity.
  intros _ _. unfold py_max. rewrite !ltb_finite_false.
  destruct (Z.compare_spec e' e), (Z.compare_spec e e'); try lia;
    try reflexivity.
  subst. destruct (Pos.compare_spec m' m), (Pos.compare_spec m m');
    try lia; subst; reflexivity.
Qed.

Lemma hypot_comm x y :
  is_nan x = false → is_nan y = false → hypot x y = hypot y x.
Proof.
  intros Hx Hy. unfold hypot.
  rewrite (py_min_abs_comm x y Hx Hy), (py_max_abs_comm x y Hx Hy).
  reflexivity.
Qed.

(** ** The loop of [ex1] *)

Lemma Exercise_ex1_loop x y out :
  Exercise.ex1 x y out =
  for_range (range (shape0 x)) (loop_body (fun a b => Ok (add a b)) x y out).
Proof. reflexivity. Qed.

Lemma Solved_ex1_loop x y out :
  Solved.ex1 x y out =
  for_range (range (shape0 x))
    (loop_body (fun a b => call hypot_jit (a, b)) x y out).
Proof. reflexivity. Qed.

Lemma for_range_cons i l body m :
  for_range (i :: l) body m =
  match body i m with
  | (Ok _, m') => for_range l body m'
  | (Raise e, m') => (Raise e, m')
  end.
Proof. reflexivity. Qed.

Section Loop.

Variable op : float → float → result float.
Variables x y out : ndarray.

Lemma loop_body_in_bounds i m :
  (i < shape0 x)%nat → (i < shape0 y)%nat → (i < shape0 out)%nat →
  loop_body op x y out i m =
    match op (cell x i m) (cell y i m) with
    | Ok v => (Ok tt, <[(data out + i)%nat := v]> m)
    | Raise e => (Raise e, m)
    end.
Proof.
  intros Hx Hy Ho. unfold loop_body, mbind, M_bind, getitem, setitem, lift.
  destruct (decide (i < shape0 x)%nat); [|lia].
  destruct (decide (i < shape0 y)%nat); [|lia].
  destruct (op _ _); [|reflexivity].
  destruct (decide (i < shape0 out)%nat); [reflexivity|lia].
Qed.

(** One iteration writes at most the cell [out[i]]. *)
Lemma loop_body_frame i m p :
  p ≠ (data out + i)%nat → (loop_body op x y out i m).2 p = m p.
Proof.
  intros Hp. unfold loop_body, mbind, M_bind, getitem, setitem, lift.
  destruct (decide (i < shape0 x)%nat); [|reflexivity].
  destruct (decide (i < shape0 y)%nat); [|reflexivity].
  destruct (op _ _); [|reflexivity].
  destruct (decide (i < shape0 out)%nat); [|reflexivity].
  cbn. apply fn_lookup_insert_ne. congruence.
Qed.

Lemma for_range_frame l m p :
  (∀ i, i ∈ l → p ≠ (data out + i)%nat) →
  (for_range l (loop_body op x y out) m).2 p = m p.
Proof.
  revert m. induction l as [|i l IH]; intros m Hp; [reflexivity|].
  rewrite for_range_cons. pose proof (loop_body_frame i m p) as Hi.
  destruct (loop_body op x y out i m) as [[[]|e] m1]; cbn in *.
  - rewrite IH by (intros j Hj; apply Hp, elem_of_cons; auto).
    apply Hi, Hp, elem_of_cons; auto.
  - apply Hi, Hp, elem_of_cons; auto.
Qed.

(** Whatever the outcome, the loop over [range n] leaves every cell
    outside [out[0..n-1]] as it was. *)
Lemma loop_frame n m p :
  ¬ (data out ≤ p < data out + n)%nat →
  (for_range (range n) (loop_body op x y out) m).2 p = m p.
Proof.
  intros Hp. apply for_range_frame. intros i Hi.
  apply elem_of_seq in Hi. lia.
Qed.

(** With every index in bounds, an exception can only come from [op]. *)
Lemma for_range_raise l m e :
  (∀ i, i ∈ l → (i < shape0 x)%nat ∧ (i < shape0 y)%nat ∧ (i < shape0 out)%nat) →
  (for_range l (loop_body op x y out) m).1 = Raise e →
  ∃ a b, op a b = Raise e.
Proof.
  revert m. induction l as [|i l IH]; intros m Hl; [discriminate|].
  rewrite for_range_cons. destruct (Hl i) as (Hx & Hy & Ho); [apply elem_of_cons; auto|].
  rewrite (loop_body_in_bounds i m Hx Hy Ho).
  destruct (op (cell x i m) (cell y i m)) as [v|e'] eqn:Hop; cbn.
  - apply IH. intros j Hj. apply Hl, elem_of_cons; auto.
  - intros [= ->]. eauto.
Qed.

(** The loop from index [s] on, when [op] succeeds on every remaining
    pair and the written cells are not cells of [x] or [y]. *)
Lemma for_range_run n k : ∀ s m,
  (s + k = n)%nat →
  (n ≤ shape0 x)%nat → (n ≤ shape0 y)%nat → (n ≤ shape0 out)%nat →
  no_shared_cell out n x → no_shared_cell out n y →
  (∀ i, (s ≤ i < n)%nat → ∃ v, op (cell x i m) (cell y i m) = Ok v) →
  ∃ m',
    for_range (seq s k) (loop_body op x y out) m = (Ok tt, m') ∧
    (∀ i, (s ≤ i < n)%nat →
       op (cell x i m) (cell y i m) = Ok (cell out i m')) ∧
    (∀ p, ¬ (data out + s ≤ p < data out + n)%nat → m' p = m p).
Proof.
  induction k as [|k IH]; intros s m Hn Hx Hy Ho Sx Sy Hop.
  - exists m. split; [reflexivity|]. split; [intros i Hi; lia|reflexivity].
  - cbn [seq]. rewrite for_range_cons, loop_body_in_bounds by lia.
    destruct (Hop s) as [v Hv]; [lia|]. rewrite Hv.
    set (m1 := <[(data out + s)%nat := v]> m).
    assert (Hcx : ∀ i, (i < n)%nat → cell x i m1 = cell x i m).
    { intros i Hi. unfold cell, m1. apply fn_lookup_insert_ne.
      apply Sx; lia. }
    assert (Hcy : ∀ i, (i < n)%nat → cell y i m1 = cell y i m).
    { intros i Hi. unfold cell, m1. apply fn_lookup_insert_ne.
      apply Sy; lia. }
    destruct (IH (S s) m1) as (m' & Hrun & Hout & Hframe); try lia; trivial.
    { intros i Hi. rewrite Hcx, Hcy by lia. apply Hop. lia. }
    exists m'. split; [exact Hrun|]. split.
    + intros i Hi. destruct (decide (i = s)) as [->|Hne].
      * rewrite Hv. f_equal. unfold cell. rewrite Hframe by lia.
        unfold m1. symmetry. apply fn_lookup_insert.
      * rewrite <- Hcx, <- Hcy by lia. apply Hout. lia.
    + intros p Hp. rewrite Hframe by lia. unfold m1.
      apply fn_lookup_insert_ne. lia.
Qed.

End Loop.

(** ** The claims about [hypot] *)

(** C1. For every pair of floats, the call through the [jit] dispatcher
    (which runs the compiled [(float64, float64)] specialisation) and the
    original function [hypot.py_func] have the same outcome: the same
    float, or the same exception. *)
Theorem hypot_jit_agrees_with_py_func (x y : float) :
  call hypot_jit (x, y) = py_func hypot_jit (x, y).
Proof.
  change (call hypot_jit (x, y)) with (hypot_float64_float64 x y).
  change (py_func hypot_jit (x, y)) with (hypot x y).
  apply hypot_float64_float64_spec.
Qed.

(** C2. On 3.0 and 4.0 both the accelerated [hypot] and [hypot.py_func]
    return exactly 5.0. *)
Theorem hypot_3_4_is_5 :
  call hypot_jit (of_int 3, of_int 4) = Ok (of_int 5) ∧
  py_func hypot_jit (of_int 3, of_int 4) = Ok (of_int 5).
Proof. split; vm_compute; reflexivity. Qed.

(** C7. [hypot] has a failure path: on 0.0 and 0.0 the division [t / x]
    raises [ZeroDivisionError] and no value is returned, in the
    interpreter and through the dispatcher alike. *)
Theorem hypot_0_0_raises :
  hypot zero zero = Raise ZeroDivisionError ∧
  call hypot_jit (zero, zero) = Raise ZeroDivisionError.
Proof. split; vm_compute; reflexivity. Qed.

(** C8, as stated, fails when an argument is NaN: max(|1.0|, |nan|) is
    1.0, [hypot(1.0, nan)] is the square root of 2 and [hypot(nan, 1.0)]
    is NaN. *)
Lemma hypot_1_nan_not_symmetric :
  eqb (py_max (abs (of_int 1)) (abs nan)) zero = false ∧
  hypot (of_int 1) nan = Ok (sqrt (of_int 2)) ∧
  hypot nan (of_int 1) = Ok nan ∧
  hypot (of_int 1) nan ≠ hypot nan (of_int 1).
Proof.
  split; [reflexivity|]. split; [vm_compute; reflexivity|].
  split; [vm_compute; reflexivity|].
  intros H. vm_compute in H. discriminate H.
Qed.

(** C8, amended. For every pair of floats, neither of them NaN, with
    max(|x|, |y|) nonzero, [hypot(x, y)] and [hypot(y, x)] return the same
    float. *)
Theorem hypot_symmetric (x y : float) :
  is_nan x = false → is_nan y = false →
  eqb (py_max (abs x) (abs y)) zero = false →
  ∃ v, hypot x y = Ok v ∧ hypot y x = Ok v.
Proof.
  intros Hx Hy Hm. rewrite <- (hypot_comm x y Hx Hy).
  rewrite (hypot_returns x y Hm). eauto.
Qed.

(** [hypot_symmetric] at 3.0 and 4.0. *)
Lemma hypot_symmetric_witness :
  is_nan (of_int 3) = false ∧ is_nan (of_int 4) = false ∧
  eqb (py_max (abs (of_int 3)) (abs (of_int 4))) zero = false ∧
  ∃ v, hypot (of_int 3) (of_int 4) = Ok v ∧ hypot (of_int 4) (of_int 3) = Ok v.
Proof.
  split; [reflexivity|]. split; [reflexivity|]. split; [reflexivity|].
  apply (hypot_symmetric (of_int 3) (of_int 4)); reflexivity.
Defined.

(** ** The claims about [cannot_compile] *)

(** C5. In strict mode ([nopython=True]) the call of [cannot_compile] on a
    dict raises [TypingError] and returns no value, whatever the dict
    holds and whatever the compiler can specialise. *)
Theorem cannot_compile_nopython_raises
    (specialisations : list Numba.type → option (pyobject → result pyobject))
    (d : gmap string pyobject) :
  call (cannot_compile_jit true specialisations) (PyDict d) = Raise TypingError.
Proof. reflexivity. Qed.

(** C6. In the default mode the call of [cannot_compile] on
    [dict(key='value')] does not raise: it runs the original function and
    returns the string 'value'. *)
Theorem cannot_compile_default_returns_value
    (specialisations : list Numba.type → option (pyobject → result pyobject)) :
  call (cannot_compile_jit false specialisations) the_dict =
    py_func (cannot_compile_jit false specialisations) the_dict ∧
  call (cannot_compile_jit false specialisations) the_dict = Ok (PyStr "value").
Proof.
  split; [reflexivity|].
  cbn. unfold object_mode, cannot_compile, getitem_str. cbn.
  rewrite lookup_singleton_eq. reflexivity.
Qed.

(** ** The claims about [ex1] *)

Lemma no_shared_cell_outside out' n a j :
  no_shared_cell out' n a → (j < shape0 a)%nat →
  ¬ (data out' ≤ data a + j < data out' + n)%nat.
Proof.
  intros Hs Hj [H1 H2].
  apply (Hs (data a + j - data out')%nat j); lia.
Qed.

Lemma read_ext a m m' :
  (∀ j, (j < shape0 a)%nat → cell a j m' = cell a j m) → read a m' = read a m.
Proof.
  intros H. unfold read. apply map_ext_in. intros j Hj.
  apply in_seq in Hj. apply H. lia.
Qed.

Lemma hypot_raise_inv x y e : hypot x y = Raise e → e = ZeroDivisionError.
Proof.
  destruct (eqb (py_max (abs x) (abs y)) zero) eqn:Hm.
  - rewrite (hypot_raises x y Hm). congruence.
  - rewrite (hypot_returns x y Hm). discriminate.
Qed.

(** C3, as stated, fails twice.  The [ex1] that the notebook runs is the
    redefinition, which stores hypot(3.0, 4.0) = 5.0 where the sum is 7.0.
    And the [ex1] that was handed out, called on overlapping slices of one
    buffer of ones ([x = b[0:2]], [y = out = b[1:3]]), leaves in [out[1]]
    the value 3.0, which is the sum of [x[1]] and [y[1]] neither as they
    were before the call (2.0) nor as they are after it (5.0). *)
Lemma ex1_is_not_always_the_sum :
  ((Solved.ex1 a3 a4 a0 mem_3_4_0).1 = Ok tt ∧
   cell a0 0 (Solved.ex1 a3 a4 a0 mem_3_4_0).2 = of_int 5 ∧
   add (cell a3 0 (Solved.ex1 a3 a4 a0 mem_3_4_0).2)
       (cell a4 0 (Solved.ex1 a3 a4 a0 mem_3_4_0).2) = of_int 7 ∧
   of_int 5 ≠ of_int 7) ∧
  ((Exercise.ex1 b_0_2 b_1_3 b_1_3 mem_ones).1 = Ok tt ∧
   cell b_1_3 1 (Exercise.ex1 b_0_2 b_1_3 b_1_3 mem_ones).2 = of_int 3 ∧
   add (cell b_0_2 1 mem_ones) (cell b_1_3 1 mem_ones) = of_int 2 ∧
   add (cell b_0_2 1 (Exercise.ex1 b_0_2 b_1_3 b_1_3 mem_ones).2)
       (cell b_1_3 1 (Exercise.ex1 b_0_2 b_1_3 b_1_3 mem_ones).2) = of_int 5 ∧
   of_int 3 ≠ of_int 2 ∧ of_int 3 ≠ of_int 5).
Proof. vm_compute. repeat split; reflexivity || discriminate. Qed.

(** C3, amended.  The [ex1] that was handed out (the first definition)
    computes the element-wise sum: for arrays [x], [y] and [out], with [y]
    and [out] at least as long as [x] and the first [x.shape[0]] entries of
    [out] sharing no memory with [x] or [y], the call returns, and
    afterwards [out[i]] is [x[i] + y[i]] for every [i] below [x.shape[0]],
    [x[i]] and [y[i]] being what they were before the call. *)
Theorem Exercise_ex1_is_sum (x y out' : ndarray) (m : memory) :
  (shape0 x ≤ shape0 y)%nat → (shape0 x ≤ shape0 out')%nat →
  no_shared_cell out' (shape0 x) x → no_shared_cell out' (shape0 x) y →
  ∃ m', Exercise.ex1 x y out' m = (Ok tt, m') ∧
    ∀ i, (i < shape0 x)%nat →
      cell out' i m' = add (cell x i m') (cell y i m') ∧
      cell x i m' = cell x i m ∧ cell y i m' = cell y i m.
Proof.
  intros Hy Ho Sx Sy. rewrite Exercise_ex1_loop. unfold range.
  destruct (for_range_run (fun a b => Ok (add a b)) x y out'
              (shape0 x) (shape0 x) 0%nat m)
    as (m' & Hrun & Hout & Hframe); trivial; try lia.
  { intros i _. eauto. }
  exists m'. split; [exact Hrun|]. intros i Hi.
  assert (Hx : cell x i m' = cell x i m).
  { apply Hframe. rewrite Nat.add_0_r.
    apply no_shared_cell_outside; trivial. }
  assert (Hy' : cell y i m' = cell y i m).
  { apply Hframe. rewrite Nat.add_0_r.
    apply no_shared_cell_outside; trivial. lia. }
  rewrite Hx, Hy'. repeat split.
  specialize (Hout i ltac:(lia)). congruence.
Qed.

(** [Exercise_ex1_is_sum] at three separate one-element arrays. *)
Lemma Exercise_ex1_is_sum_witness :
  ∃ m', Exercise.ex1 a3 a4 a0 mem_3_4_0 = (Ok tt, m') ∧
    ∀ i, (i < shape0 a3)%nat →
      cell a0 i m' = add (cell a3 i m') (cell a4 i m') ∧
      cell a3 i m' = cell a3 i mem_3_4_0 ∧ cell a4 i m' = cell a4 i mem_3_4_0.
Proof.
  apply (Exercise_ex1_is_sum a3 a4 a0 mem_3_4_0).
  - simpl. lia.
  - simpl. lia.
  - intros i j Hi Hj. simpl in *. lia.
  - intros i j Hi Hj. simpl in *. lia.
Defined.

(** The redefinition stores [hypot(x[i], y[i])]: under the same
    conditions, and when no pair of elements is a pair of zeros (or a
    zero and a NaN), the call returns and [out[i]] holds the value of
    [hypot] on [x[i]] and [y[i]]. *)
Lemma Solved_ex1_is_hypot (x y out' : ndarray) (m : memory) :
  (shape0 x ≤ shape0 y)%nat → (shape0 x ≤ shape0 out')%nat →
  no_shared_cell out' (shape0 x) x → no_shared_cell out' (shape0 x) y →
  (∀ i, (i < shape0 x)%nat →
     eqb (py_max (abs (cell x i m)) (abs (cell y i m))) zero = false) →
  ∃ m', Solved.ex1 x y out' m = (Ok tt, m') ∧
    ∀ i, (i < shape0 x)%nat →
      hypot (cell x i m) (cell y i m) = Ok (cell out' i m').
Proof.
  intros Hy Ho Sx Sy Hnz. rewrite Solved_ex1_loop. unfold range.
  destruct (for_range_run (fun a b => call hypot_jit (a, b)) x y out'
              (shape0 x) (shape0 x) 0%nat m)
    as (m' & Hrun & Hout & _); trivial; try lia.
  { intros i Hi. rewrite call_hypot_jit, hypot_returns by (apply Hnz; lia).
    eauto. }
  exists m'. split; [exact Hrun|]. intros i Hi.
  rewrite <- call_hypot_jit. apply Hout. lia.
Qed.

(** C4. On the ten-element inputs of the notebook ([in1 = arange(10)],
    [in2 = 2 * in1 + 1]) the call of [ex1] returns, and the check
    [assert_almost_equal(out, np.hypot(in1, in2))] passes, whatever
    [np.empty_like] left in [out]. *)
Theorem ex1_almost_equal_np_hypot (m0 : memory) :
  (run_ex1 m0).1 = Ok tt ∧
  read in1 (run_ex1 m0).2 = arange 10 ∧
  read in2 (run_ex1 m0).2 =
    map (fun v => add (mul (of_int 2) v) (of_int 1)) (arange 10) ∧
  assert_almost_equal (read out (run_ex1 m0).2)
    (np_hypot (read in1 (run_ex1 m0).2) (read in2 (run_ex1 m0).2)) = Ok tt.
Proof. vm_compute. repeat split; reflexivity. Qed.

(** C9, as stated, fails when [out] is one of the inputs: after
    [ex1(a, b, a)] on [a = [3.0]] and [b = [4.0]] the input [a] holds
    5.0. *)
Lemma ex1_changes_aliased_input :
  (shape0 a3 ≤ shape0 a4)%nat ∧ (shape0 a3 ≤ shape0 a3)%nat ∧
  (Solved.ex1 a3 a4 a3 mem_3_4_0).1 = Ok tt ∧
  read a3 mem_3_4_0 = [of_int 3] ∧
  read a3 (Solved.ex1 a3 a4 a3 mem_3_4_0).2 = [of_int 5] ∧
  read a3 (Solved.ex1 a3 a4 a3 mem_3_4_0).2 ≠ read a3 mem_3_4_0.
Proof. vm_compute. repeat split; reflexivity || lia || discriminate. Qed.

(** C9, amended.  For every call [ex1(x, y, out)] with [y] and [out] at
    least as long as [x] and the first [x.shape[0]] entries of [out]
    sharing no memory with [x] or [y], whether the call returns or raises,
    [x] and [y] are unchanged and every [out[i]] with [i] at or beyond
    [x.shape[0]] keeps its value. *)
Theorem Solved_ex1_frame (x y out' : ndarray) (m : memory) :
  (shape0 x ≤ shape0 y)%nat → (shape0 x ≤ shape0 out')%nat →
  no_shared_cell out' (shape0 x) x → no_shared_cell out' (shape0 x) y →
  read x (Solved.ex1 x y out' m).2 = read x m ∧
  read y (Solved.ex1 x y out' m).2 = read y m ∧
  ∀ i, (shape0 x ≤ i)%nat →
    cell out' i (Solved.ex1 x y out' m).2 = cell out' i m.
Proof.
  intros _ _ Sx Sy. rewrite Solved_ex1_loop. repeat split.
  - apply read_ext. intros j Hj. apply loop_frame.
    apply no_shared_cell_outside; trivial.
  - apply read_ext. intros j Hj. apply loop_frame.
    apply no_shared_cell_outside; trivial.
  - intros i Hi. apply loop_frame. lia.
Qed.

(** [Solved_ex1_frame] at three separate one-element arrays. *)
Lemma Solved_ex1_frame_witness :
  read a3 (Solved.ex1 a3 a4 a0 mem_3_4_0).2 = read a3 mem_3_4_0 ∧
  read a4 (Solved.ex1 a3 a4 a0 mem_3_4_0).2 = read a4 mem_3_4_0 ∧
  ∀ i, (shape0 a3 ≤ i)%nat →
    cell a0 i (Solved.ex1 a3 a4 a0 mem_3_4_0).2 = cell a0 i mem_3_4_0.
Proof.
  apply (Solved_ex1_frame a3 a4 a0 mem_3_4_0).
  - simpl. lia.
  - simpl. lia.
  - intros i j Hi Hj. simpl in *. lia.
  - intros i j Hi Hj. simpl in *. lia.
Defined.

(** C10. When [y] and [out] are at least as long as [x], every access
    [x[i]], [y[i]] and [out[i]] of [ex1] passes its bounds check: the loop
    runs to its end, or stops at the [ZeroDivisionError] of a call of
    [hypot], and [IndexError] is never raised. *)
Theorem Solved_ex1_in_bounds (x y out' : ndarray) (m : memory) :
  (shape0 x ≤ shape0 y)%nat → (shape0 x ≤ shape0 out')%nat →
  (Solved.ex1 x y out' m).1 ≠ Raise IndexError ∧
  ((Solved.ex1 x y out' m).1 = Ok tt ∨
   (Solved.ex1 x y out' m).1 = Raise ZeroDivisionError).
Proof.
  intros Hy Ho.
  assert (H : ∀ e, (Solved.ex1 x y out' m).1 = Raise e → e = ZeroDivisionError).
  { intros e He. rewrite Solved_ex1_loop in He.
    apply for_range_raise in He as (a & b & Hab).
    - rewrite call_hypot_jit in Hab. exact (hypot_raise_inv a b e Hab).
    - intros i Hi. apply elem_of_seq in Hi. lia. }
  split.
  - intros He. apply H in He. discriminate He.
  - destruct (Solved.ex1 x y out' m).1 as [[]|e]; [left; reflexivity|].
    right. f_equal. apply H. reflexivity.
Qed.

(** [Solved_ex1_in_bounds] at three one-element arrays. *)
Lemma Solved_ex1_in_bounds_witness :
  (Solved.ex1 a3 a4 a0 mem_3_4_0).1 ≠ Raise IndexError ∧
  ((Solved.ex1 a3 a4 a0 mem_3_4_0).1 = Ok tt ∨
   (Solved.ex1 a3 a4 a0 mem_3_4_0).1 = Raise ZeroDivisionError).
Proof.
  apply (Solved_ex1_in_bounds a3 a4 a0 mem_3_4_0); simpl; lia.
Defined.

(** * Further properties of the notebook's functions *)

(** ** [hypot] on special values *)

Lemma ltb_nan_r a : ltb a nan = false.
Proof. destruct a; reflexivity. Qed.

Lemma ltb_nan_l a : ltb nan a = false.
Proof. destruct a; reflexivity. Qed.

Lemma py_min_same a : py_min a a = a.
Proof. unfold py_min. destruct (ltb a a); reflexivity. Qed.

Lemma py_max_same a : py_max a a = a.
Proof. unfold py_max. destruct (ltb a a); reflexivity. Qed.

Lemma py_min_nan_r a : py_min a nan = a.
Proof. unfold py_min. rewrite ltb_nan_l. reflexivity. Qed.

Lemma py_max_nan_r a : py_max a nan = a.
Proof. unfold py_max. rewrite ltb_nan_r. reflexivity. Qed.

Lemma abs_opp x : abs (opp x) = abs x.
Proof. destruct x; reflexivity. Qed.

Lemma py_max_abs_zero x y :
  eqb (py_max (abs x) (abs y)) zero =
  is_zero x && (is_zero y || is_nan y).
Proof.
  destruct x as [s|s| |s m e], y as [s'|s'| |s' m' e']; try reflexivity.
  cbn [abs SFabs is_zero is_nan andb orb]. unfold py_max.
  destruct (ltb _ _); reflexivity.
Qed.

(** X1. [hypot] raises exactly when the first argument is a zero and the
    second is a zero or a NaN, and then it raises [ZeroDivisionError];
    so [hypot(0.0, nan)] raises while [hypot(nan, 0.0)] returns. *)
Theorem hypot_raises_iff (x y : float) (e : exn) :
  hypot x y = Raise e ↔
  e = ZeroDivisionError ∧ is_zero x && (is_zero y || is_nan y) = true.
Proof.
  rewrite <- py_max_abs_zero.
  destruct (eqb (py_max (abs x) (abs y)) zero) eqn:Hm.
  - rewrite (hypot_raises x y Hm). split.
    + intros [= <-]. split; reflexivity.
    + intros [-> _]. reflexivity.
  - rewrite (hypot_returns x y Hm). split; [discriminate|].
    intros [_ H]. discriminate H.
Qed.

(** X2. [hypot] ignores the signs of its arguments. *)
Theorem hypot_ignores_signs (x y : float) :
  hypot (opp x) y = hypot x y ∧ hypot x (opp y) = hypot x y ∧
  hypot (abs x) (abs y) = hypot x y.
Proof.
  unfold hypot. rewrite !abs_opp.
  replace (abs (abs x)) with (abs x) by (destruct x; reflexivity).
  replace (abs (abs y)) with (abs y) by (destruct y; reflexivity).
  repeat split.
Qed.

Lemma mul_sign s1 s2 a b :
  signed_as s1 a → signed_as s2 b → signed_as (xorb s1 s2) (mul a b).
Proof.
  destruct a as [s|s| |s m e], b as [s'|s'| |s' m' e']; cbn;
    try (intros; subst; trivial; fail).
  intros -> ->. apply binary_round_aux_sign.
Qed.

Lemma sqrt_sign a : signed_as false a → signed_as false (sqrt a).
Proof.
  destruct a as [s|s| |s m e]; cbn; trivial.
  - intros ->. reflexivity.
  - intros ->. unfold sqrt, SFsqrt.
    destruct (SFsqrt_core_binary prec emax (Z.pos m) e) as [[mz ez] lz].
    apply binary_round_aux_sign.
Qed.

Lemma abs_sign x : signed_as false (abs x).
Proof. destruct x; reflexivity. Qed.

Lemma py_max_sign s a b : signed_as s a → signed_as s b → signed_as s (py_max a b).
Proof. intros Ha Hb. unfold py_max. destruct (ltb a b); trivial. Qed.

(** X3. A value returned by [hypot] is never negative: its sign bit is
    clear, or it is NaN. *)
Theorem hypot_never_negative (x y v : float) :
  hypot x y = Ok v → signed_as false v ∧ is_negative v = false.
Proof.
  intros H.
  assert (Hs : signed_as false v).
  { destruct (eqb (py_max (abs x) (abs y)) zero) eqn:Hm.
    - rewrite (hypot_raises x y Hm) in H. discriminate H.
    - rewrite (hypot_returns x y Hm) in H. injection H as <-. cbv zeta.
      change false with (xorb false false). apply mul_sign.
      + apply py_max_sign; apply abs_sign.
      + apply sqrt_sign, add_one_sign, mul_self_sign. }
  split; [exact Hs|]. apply signed_as_false_not_negative, Hs.
Qed.

(** [hypot_never_negative] at 3.0 and 4.0. *)
Lemma hypot_never_negative_witness :
  signed_as false (of_int 5) ∧ is_negative (of_int 5) = false.
Proof.
  apply (hypot_never_negative (of_int 3) (of_int 4) (of_int 5)).
  vm_compute. reflexivity.
Defined.

(** X4. A NaN first argument propagates: [hypot(nan, y)] is NaN for every
    [y]. *)
Theorem hypot_nan_first (y : float) : hypot nan y = Ok nan.
Proof. destruct y; reflexivity. Qed.

(** X5. A NaN second argument is ignored, not propagated: [hypot(x, nan)]
    is [hypot(x, x)] for every [x]. *)
Theorem hypot_nan_second (x : float) : hypot x nan = hypot x x.
Proof.
  unfold hypot. change (abs nan) with nan.
  rewrite py_min_nan_r, py_max_nan_r, py_min_same, py_max_same. reflexivity.
Qed.

(** X6. With one argument infinite, [hypot] returns +inf when the other
    is finite, and NaN when the other is infinite or NaN. *)
Theorem hypot_infinite (s : bool) (y : float) :
  hypot (S754_infinity s) y =
    Ok (if is_finite y then S754_infinity false else nan) ∧
  hypot y (S754_infinity s) =
    Ok (if is_finite y then S754_infinity false else nan).
Proof. destruct y as [s'|s'| |s' m e]; split; vm_compute; reflexivity. Qed.

Lemma mul_2_52 m : (4503599627370496 * m = Pos.iter xO m 52)%positive.
Proof. reflexivity. Qed.

Lemma digits_2_52 m :
  Z.pos (digits2_pos (Pos.iter xO m 52)) = Z.pos (digits2_pos m) + 52.
Proof. cbn. rewrite !Pos2Z.inj_succ. lia. Qed.

Lemma shr_2_52 m :
  SpecFloat.iter_pos shr_1 52
    {| shr_m := Z.pos (Pos.iter xO m 52); shr_r := false; shr_s := false |} =
  {| shr_m := Z.pos m; shr_r := false; shr_s := false |}.
Proof. reflexivity. Qed.

Lemma mul_one_r m e :
  bounded prec emax m e = true →
  mul (S754_finite false m e) (of_int 1) = S754_finite false m e.
Proof.
  intros Hb. rewrite of_int_1.
  apply andb_prop in Hb as [Hc He].
  unfold canonical_mantissa in Hc. apply Z.eqb_eq in Hc.
  unfold mul, SFmul. cbn [xorb].
  rewrite Pos.mul_comm, mul_2_52.
  unfold binary_round_aux.
  assert (H1 : shr_fexp prec emax (Z.pos (Pos.iter xO m 52)) (e + -52) loc_Exact =
               ({| shr_m := Z.pos m; shr_r := false; shr_s := false |}, e)).
  { unfold shr_fexp. cbn [Zdigits2 shr_record_of_loc]. rewrite digits_2_52.
    replace (Z.pos (digits2_pos m) + 52 + (e + -52)) with (Z.pos (digits2_pos m) + e) by lia.
    rewrite Hc. replace (e - (e + -52)) with 52 by lia.
    unfold shr. rewrite shr_2_52. f_equal. lia. }
  rewrite H1. cbn [shr_m loc_of_shr_record round_nearest_even].
  assert (H2 : shr_fexp prec emax (Z.pos m) e loc_Exact =
               ({| shr_m := Z.pos m; shr_r := false; shr_s := false |}, e)).
  { unfold shr_fexp. cbn [Zdigits2 shr_record_of_loc]. rewrite Hc, Z.sub_diag.
    reflexivity. }
  rewrite H2. cbn [shr_m]. rewrite He. reflexivity.
Qed.

(** X7. With one argument a zero (of either sign) and the other a
    representable float that is neither a zero nor NaN, [hypot] returns
    exactly the absolute value of the other argument. *)
Theorem hypot_zero_arg (x : float) (s : bool) :
  is_binary64 x = true → is_zero x = false → is_nan x = false →
  hypot x (S754_zero s) = Ok (abs x) ∧ hypot (S754_zero s) x = Ok (abs x).
Proof.
  destruct x as [s'|s'| |s' m e]; try discriminate.
  - intros _ _ _. split; reflexivity.
  - intros Hb _ _. cbn [is_binary64 valid_binary] in Hb.
    assert (H1 : hypot (S754_finite s' m e) (S754_zero s) =
                 Ok (mul (S754_finite false m e) (of_int 1))) by reflexivity.
    assert (H2 : hypot (S754_zero s) (S754_finite s' m e) =
                 Ok (mul (S754_finite false m e) (of_int 1))) by reflexivity.
    rewrite H1, H2, (mul_one_r m e Hb). split; reflexivity.
Qed.

(** [hypot_zero_arg] at 3.0 and +0.0. *)
Lemma hypot_zero_arg_witness :
  hypot (of_int 3) (S754_zero false) = Ok (abs (of_int 3)) ∧
  hypot (S754_zero false) (of_int 3) = Ok (abs (of_int 3)).
Proof. apply (hypot_zero_arg (of_int 3) false); reflexivity. Defined.

(** ** More on the loop of [ex1] *)

Lemma for_range_app l1 l2 body m :
  for_range (l1 ++ l2) body m =
  match for_range l1 body m with
  | (Ok _, m') => for_range l2 body m'
  | (Raise e, m') => (Raise e, m')
  end.
Proof.
  revert m. induction l1 as [|i l1 IH]; intros m; [reflexivity|].
  cbn [app]. rewrite !for_range_cons.
  destruct (body i m) as [[[]|e] m1]; [apply IH|reflexivity].
Qed.

Lemma range_split n k : (k < n)%nat → range n = seq 0 k ++ k :: seq (S k) (n - S k).
Proof.
  intros Hk. unfold range.
  replace n with (k + S (n - S k))%nat at 1 by lia.
  rewrite seq_app. reflexivity.
Qed.

Lemma memory_insert_eq (m : memory) a v : (<[a := v]> m) a = v.
Proof. apply fn_lookup_insert. Qed.

Lemma memory_insert_ne (m : memory) a b v : a ≠ b → (<[a := v]> m) b = m b.
Proof. apply fn_lookup_insert_ne. Qed.

Section LoopInPlace.

Variable op : float → float → result float.
Variables x y out : ndarray.

Lemma loop_body_unfold i m :
  loop_body op x y out i m =
  if decide (i < shape0 x)%nat then
    if decide (i < shape0 y)%nat then
      match op (cell x i m) (cell y i m) with
      | Ok v =>
          if decide (i < shape0 out)%nat
          then (Ok tt, <[(data out + i)%nat := v]> m)
          else (Raise IndexError, m)
      | Raise e => (Raise e, m)
      end
    else (Raise IndexError, m)
  else (Raise IndexError, m).
Proof.
  unfold loop_body, mbind, M_bind, getitem, setitem, lift.
  destruct (decide (i < shape0 x)%nat); [|reflexivity].
  destruct (decide (i < shape0 y)%nat); [|reflexivity].
  destruct (op _ _); reflexivity.
Qed.

Lemma for_range_run_ahead n k : ∀ s m,
  (s + k = n)%nat →
  (n ≤ shape0 x)%nat → (n ≤ shape0 y)%nat → (n ≤ shape0 out)%nat →
  no_overwrite_ahead out x n → no_overwrite_ahead out y n →
  (∀ i, (s ≤ i < n)%nat → ∃ v, op (cell x i m) (cell y i m) = Ok v) →
  ∃ m',
    for_range (seq s k) (loop_body op x y out) m = (Ok tt, m') ∧
    (∀ i, (s ≤ i < n)%nat →
       op (cell x i m) (cell y i m) = Ok (cell out i m')) ∧
    (∀ p, ¬ (data out + s ≤ p < data out + n)%nat → m' p = m p).
Proof.
  induction k as [|k IH]; intros s m Hn Hx Hy Ho Sx Sy Hop.
  - exists m. split; [reflexivity|]. split; [intros i Hi; lia|reflexivity].
  - cbn [seq]. rewrite for_range_cons, loop_body_in_bounds by lia.
    destruct (Hop s) as [v Hv]; [lia|]. rewrite Hv.
    set (m1 := <[(data out + s)%nat := v]> m).
    assert (Hcx : ∀ i, (s < i < n)%nat → cell x i m1 = cell x i m).
    { intros i Hi. unfold cell, m1. apply fn_lookup_insert_ne.
      apply Sx; lia. }
    assert (Hcy : ∀ i, (s < i < n)%nat → cell y i m1 = cell y i m).
    { intros i Hi. unfold cell, m1. apply fn_lookup_insert_ne.
      apply Sy; lia. }
    destruct (IH (S s) m1) as (m' & Hrun & Hout & Hframe); try lia; trivial.
    { intros i Hi. rewrite Hcx, Hcy by lia. apply Hop. lia. }
    exists m'. split; [exact Hrun|]. split.
    + intros i Hi. destruct (decide (i = s)) as [->|Hne].
      * rewrite Hv. f_equal. unfold cell. rewrite Hframe by lia.
        unfold m1. symmetry. apply fn_lookup_insert.
      * rewrite <- Hcx, <- Hcy by lia. apply Hout. lia.
    + intros p Hp. rewrite Hframe by lia. unfold m1.
      apply fn_lookup_insert_ne. lia.
Qed.

(** The loop stops at the first index [k] whose iteration raises: the
    entries before [k] are written, nothing else is. *)
Lemma for_range_stop n k m e :
  (k < n)%nat →
  (k ≤ shape0 x)%nat → (k ≤ shape0 y)%nat → (k ≤ shape0 out)%nat →
  no_overwrite_ahead out x k → no_overwrite_ahead out y k →
  (∀ i, (i < k)%nat → ∃ v, op (cell x i m) (cell y i m) = Ok v) →
  (∀ m1, (∀ p, ¬ (data out ≤ p < data out + k)%nat → m1 p = m p) →
         loop_body op x y out k m1 = (Raise e, m1)) →
  ∃ m',
    for_range (range n) (loop_body op x y out) m = (Raise e, m') ∧
    (∀ i, (i < k)%nat → op (cell x i m) (cell y i m) = Ok (cell out i m')) ∧
    (∀ p, ¬ (data out ≤ p < data out + k)%nat → m' p = m p).
Proof.
  intros Hk Hx Hy Ho Sx Sy Hop Hstep.
  destruct (for_range_run_ahead k k 0%nat m) as (m' & Hrun & Hout & Hframe);
    trivial.
  { intros i Hi. apply Hop. lia. }
  rewrite Nat.add_0_r in Hframe.
  exists m'. split; [|split].
  - rewrite (range_split n k Hk), for_range_app, Hrun, for_range_cons.
    rewrite (Hstep m' Hframe). reflexivity.
  - intros i Hi. apply Hout. lia.
  - exact Hframe.
Qed.

(** The loop never reads [out]: from two memories that differ only in the
    entries of [out] still to be written, it has the same outcome, and
    when it returns the same final memory. *)
Lemma for_range_sim n k : ∀ s m1 m2,
  (s + k = n)%nat → (n ≤ shape0 x)%nat →
  no_shared_cell out n x → no_shared_cell out n y →
  (∀ p, ¬ (data out + s ≤ p < data out + n)%nat → m1 p = m2 p) →
  (for_range (seq s k) (loop_body op x y out) m1).1 =
  (for_range (seq s k) (loop_body op x y out) m2).1 ∧
  ((for_range (seq s k) (loop_body op x y out) m1).1 = Ok tt →
   ∀ p, (for_range (seq s k) (loop_body op x y out) m1).2 p =
        (for_range (seq s k) (loop_body op x y out) m2).2 p).
Proof.
  induction k as [|k IH]; intros s m1 m2 Hn Hx Sx Sy Hagree.
  - split; [reflexivity|]. intros _ p. apply Hagree. lia.
  - cbn [seq]. rewrite !for_range_cons, !loop_body_unfold.
    destruct (decide (s < shape0 x)%nat) as [Hsx|]; [|lia].
    assert (Hcx : cell x s m1 = cell x s m2).
    { apply Hagree. intros [H1 H2].
      apply (Sx (data x + s - data out)%nat s); lia. }
    destruct (decide (s < shape0 y)%nat) as [Hsy|]; [|cbn; split; [reflexivity|discriminate]].
    assert (Hcy : cell y s m1 = cell y s m2).
    { apply Hagree. intros [H1 H2].
      apply (Sy (data y + s - data out)%nat s); lia. }
    rewrite Hcx, Hcy.
    destruct (op (cell x s m2) (cell y s m2)) as [v|e];
      [|cbn; split; [reflexivity|discriminate]].
    destruct (decide (s < shape0 out)%nat) as [Hso|];
      [|cbn; split; [reflexivity|discriminate]].
    apply IH; trivial; try lia.
    intros p Hp. destruct (decide (p = data out + s)%nat) as [->|Hne].
    + rewrite !memory_insert_eq. reflexivity.
    + rewrite !memory_insert_ne by congruence. apply Hagree. lia.
Qed.

End LoopInPlace.

(** ** [ex1]: exceptions, in-place use and what it never reads *)

Lemma Exercise_ex1_ok (x y out' : ndarray) (m : memory) :
  (shape0 x ≤ shape0 y)%nat → (shape0 x ≤ shape0 out')%nat →
  (Exercise.ex1 x y out' m).1 = Ok tt.
Proof.
  intros Hy Ho. destruct (Exercise.ex1 x y out' m).1 as [[]|e] eqn:He;
    [reflexivity|].
  rewrite Exercise_ex1_loop in He.
  apply for_range_raise in He as (a & b & Hab); [discriminate Hab|].
  intros i Hi. apply elem_of_seq in Hi. lia.
Qed.

(** X8. With [y] and [out] at least as long as [x], the [ex1] that was
    handed out always returns, whatever memory the arrays share, and it
    changes no cell outside the first [x.shape[0]] entries of [out]. *)
Theorem Exercise_ex1_returns (x y out' : ndarray) (m : memory) :
  (shape0 x ≤ shape0 y)%nat → (shape0 x ≤ shape0 out')%nat →
  (Exercise.ex1 x y out' m).1 = Ok tt ∧
  ∀ p, ¬ (data out' ≤ p < data out' + shape0 x)%nat →
    (Exercise.ex1 x y out' m).2 p = m p.
Proof.
  intros Hy Ho. split; [apply Exercise_ex1_ok; trivial|].
  intros p Hp. rewrite Exercise_ex1_loop. apply loop_frame, Hp.
Qed.

(** [Exercise_ex1_returns] at overlapping slices of one buffer. *)
Lemma Exercise_ex1_returns_witness :
  (Exercise.ex1 b_0_2 b_1_3 b_1_3 mem_ones).1 = Ok tt ∧
  ∀ p, ¬ (data b_1_3 ≤ p < data b_1_3 + shape0 b_0_2)%nat →
    (Exercise.ex1 b_0_2 b_1_3 b_1_3 mem_ones).2 p = mem_ones p.
Proof.
  apply (Exercise_ex1_returns b_0_2 b_1_3 b_1_3 mem_ones); simpl; lia.
Defined.



(** X10. The [ex1] that the notebook runs stops at the first index [k]
    whose pair makes [hypot] divide by zero: it raises
    [ZeroDivisionError], the [k] entries before are already written with
    the values of [hypot], and nothing else is changed. *)
Theorem Solved_ex1_stops_at_zero_pair (x y out' : ndarray) (m : memory) (k : nat) :
  (k < shape0 x)%nat → (shape0 x ≤ shape0 y)%nat → (shape0 x ≤ shape0 out')%nat →
  no_overwrite_ahead out' x (shape0 x) → no_overwrite_ahead out' y (shape0 x) →
  (∀ i, (i < k)%nat →
     eqb (py_max (abs (cell x i m)) (abs (cell y i m))) zero = false) →
  eqb (py_max (abs (cell x k m)) (abs (cell y k m))) zero = true →
  ∃ m',
    Solved.ex1 x y out' m = (Raise ZeroDivisionError, m') ∧
    (∀ i, (i < k)%nat → hypot (cell x i m) (cell y i m) = Ok (cell out' i m')) ∧
    (∀ p, ¬ (data out' ≤ p < data out' + k)%nat → m' p = m p).
Proof.
  intros Hk Hy Ho Sx Sy Hnz Hz. rewrite Solved_ex1_loop.
  destruct (for_range_stop (fun a b => call hypot_jit (a, b)) x y out'
              (shape0 x) k m ZeroDivisionError)
    as (m' & Hrun & Hout & Hframe); trivial; try lia.
  { intros i j Hi Hj. apply Sx; lia. }
  { intros i j Hi Hj. apply Sy; lia. }
  { intros i Hi. rewrite call_hypot_jit, hypot_returns by (apply Hnz; lia).
    eauto. }
  { intros m1 Hm1. rewrite loop_body_unfold.
    destruct (decide (k < shape0 x)%nat); [|lia].
    destruct (decide (k < shape0 y)%nat); [|lia].
    assert (Hcx : cell x k m1 = cell x k m).
    { apply Hm1. intros [H1 H2].
      apply (Sx (data x + k - data out')%nat k); lia. }
    assert (Hcy : cell y k m1 = cell y k m).
    { apply Hm1. intros [H1 H2].
      apply (Sy (data y + k - data out')%nat k); lia. }
    rewrite Hcx, Hcy, call_hypot_jit, (hypot_raises _ _ Hz). reflexivity. }
  exists m'. split; [exact Hrun|]. split; [|exact Hframe].
  intros i Hi. rewrite <- call_hypot_jit. apply Hout, Hi.
Qed.

(** [Solved_ex1_stops_at_zero_pair] on [x = [3.0, 0.0]] and
    [y = [4.0, 0.0]]: the loop stops at index 1. *)
Lemma Solved_ex1_stops_at_zero_pair_witness :
  ∃ m',
    Solved.ex1 b_0_2 v_2_4 v_4_6 mem_zero_pair = (Raise ZeroDivisionError, m') ∧
    (∀ i, (i < 1)%nat →
       hypot (cell b_0_2 i mem_zero_pair) (cell v_2_4 i mem_zero_pair) =
       Ok (cell v_4_6 i m')) ∧
    (∀ p, ¬ (data v_4_6 ≤ p < data v_4_6 + 1)%nat → m' p = mem_zero_pair p).
Proof.
  apply (Solved_ex1_stops_at_zero_pair b_0_2 v_2_4 v_4_6 mem_zero_pair 1).
  - simpl. lia.
  - simpl. lia.
  - simpl. lia.
  - intros i j Hi Hj. simpl in *. lia.
  - intros i j Hi Hj. simpl in *. lia.
  - intros i Hi. assert (i = 0)%nat as -> by lia. reflexivity.
  - reflexivity.
Defined.

(** X11. The [ex1] that was handed out stores the sums of the values the
    inputs held before the call whenever no entry of [out] is written
    over a cell of [x] or [y] that is read later; this covers separate
    arrays and the in-place call [ex1(a, b, a)]. *)
Theorem Exercise_ex1_sum_of_originals (x y out' : ndarray) (m : memory) :
  (shape0 x ≤ shape0 y)%nat → (shape0 x ≤ shape0 out')%nat →
  no_overwrite_ahead out' x (shape0 x) → no_overwrite_ahead out' y (shape0 x) →
  ∃ m',
    Exercise.ex1 x y out' m = (Ok tt, m') ∧
    (∀ i, (i < shape0 x)%nat →
       cell out' i m' = add (cell x i m) (cell y i m)) ∧
    (∀ p, ¬ (data out' ≤ p < data out' + shape0 x)%nat → m' p = m p).
Proof.
  intros Hy Ho Sx Sy. rewrite Exercise_ex1_loop. unfold range.
  destruct (for_range_run_ahead (fun a b => Ok (add a b)) x y out'
              (shape0 x) (shape0 x) 0%nat m)
    as (m' & Hrun & Hout & Hframe); trivial; try lia.
  { intros i _. eauto. }
  exists m'. split; [exact Hrun|]. split.
  - intros i Hi. specialize (Hout i ltac:(lia)). congruence.
  - intros p Hp. apply Hframe. lia.
Qed.

(** [Exercise_ex1_sum_of_originals] at the in-place call [ex1(a, b, a)]
    on two-element arrays. *)
Lemma Exercise_ex1_sum_of_originals_witness :
  ∃ m',
    Exercise.ex1 b_0_2 v_3_5 b_0_2 mem_five = (Ok tt, m') ∧
    (∀ i, (i < shape0 b_0_2)%nat →
       cell b_0_2 i m' = add (cell b_0_2 i mem_five) (cell v_3_5 i mem_five)) ∧
    (∀ p, ¬ (data b_0_2 ≤ p < data b_0_2 + shape0 b_0_2)%nat → m' p = mem_five p).
Proof.
  apply (Exercise_ex1_sum_of_originals b_0_2 v_3_5 b_0_2 mem_five).
  - simpl. lia.
  - simpl. lia.
  - intros i j Hi Hj. simpl in *. lia.
  - intros i j Hi Hj. simpl in *. lia.
Defined.

(** X12. The [ex1] that the notebook runs, under the same condition on
    the memory and when no pair makes [hypot] divide by zero, returns and
    stores in [out[i]] the value of [hypot] on what [x[i]] and [y[i]] held
    before the call; this covers the in-place call [ex1(a, b, a)]. *)
Theorem Solved_ex1_hypot_of_originals (x y out' : ndarray) (m : memory) :
  (shape0 x ≤ shape0 y)%nat → (shape0 x ≤ shape0 out')%nat →
  no_overwrite_ahead out' x (shape0 x) → no_overwrite_ahead out' y (shape0 x) →
  (∀ i, (i < shape0 x)%nat →
     eqb (py_max (abs (cell x i m)) (abs (cell y i m))) zero = false) →
  ∃ m',
    Solved.ex1 x y out' m = (Ok tt, m') ∧
    (∀ i, (i < shape0 x)%nat →
       hypot (cell x i m) (cell y i m) = Ok (cell out' i m')) ∧
    (∀ p, ¬ (data out' ≤ p < data out' + shape0 x)%nat → m' p = m p).
Proof.
  intros Hy Ho Sx Sy Hnz. rewrite Solved_ex1_loop. unfold range.
  destruct (for_range_run_ahead (fun a b => call hypot_jit (a, b)) x y out'
              (shape0 x) (shape0 x) 0%nat m)
    as (m' & Hrun & Hout & Hframe); trivial; try lia.
  { intros i Hi. rewrite call_hypot_jit, hypot_returns by (apply Hnz; lia).
    eauto. }
  exists m'. split; [exact Hrun|]. split.
  - intros i Hi. rewrite <- call_hypot_jit. apply Hout. lia.
  - intros p Hp. apply Hframe. lia.
Qed.

(** [Solved_ex1_hypot_of_originals] at the in-place call [ex1(a, b, a)]
    on two-element arrays. *)
Lemma Solved_ex1_hypot_of_originals_witness :
  ∃ m',
    Solved.ex1 b_0_2 v_3_5 b_0_2 mem_five = (Ok tt, m') ∧
    (∀ i, (i < shape0 b_0_2)%nat →
       hypot (cell b_0_2 i mem_five) (cell v_3_5 i mem_five) =
       Ok (cell b_0_2 i m')) ∧
    (∀ p, ¬ (data b_0_2 ≤ p < data b_0_2 + shape0 b_0_2)%nat → m' p = mem_five p).
Proof.
  apply (Solved_ex1_hypot_of_originals b_0_2 v_3_5 b_0_2 mem_five).
  - simpl. lia.
  - simpl. lia.
  - intros i j Hi Hj. simpl in *. lia.
  - intros i j Hi Hj. simpl in *. lia.
  - intros i Hi. simpl in Hi.
    destruct i as [|[|i]]; [reflexivity|reflexivity|lia].
Defined.

(** X13. Calling the handed-out [ex1] a second time changes nothing: when
    [y] and [out] are at least as long as [x] and the first [x.shape[0]]
    entries of [out] share no memory with [x] or [y], the second call
    returns and leaves every cell as the first call left it. *)
Theorem Exercise_ex1_idempotent (x y out' : ndarray) (m : memory) :
  (shape0 x ≤ shape0 y)%nat → (shape0 x ≤ shape0 out')%nat →
  no_shared_cell out' (shape0 x) x → no_shared_cell out' (shape0 x) y →
  (Exercise.ex1 x y out' (Exercise.ex1 x y out' m).2).1 = Ok tt ∧
  ∀ p, (Exercise.ex1 x y out' (Exercise.ex1 x y out' m).2).2 p =
       (Exercise.ex1 x y out' m).2 p.
Proof.
  intros Hy Ho Sx Sy. split; [apply Exercise_ex1_ok; trivial|].
  set (m1 := (Exercise.ex1 x y out' m).2).
  assert (Hagree : ∀ p, ¬ (data out' + 0 ≤ p < data out' + shape0 x)%nat →
                        m p = m1 p).
  { intros p Hp. unfold m1. rewrite Exercise_ex1_loop. symmetry.
    apply loop_frame. lia. }
  destruct (for_range_sim (fun a b => Ok (add a b)) x y out'
              (shape0 x) (shape0 x) 0%nat m m1) as [_ Hsame];
    trivial; try lia.
  intros p. symmetry. unfold m1 at 2. rewrite !Exercise_ex1_loop.
  apply Hsame. rewrite <- Exercise_ex1_loop. apply Exercise_ex1_ok; trivial.
Qed.

(** [Exercise_ex1_idempotent] at three separate one-element arrays. *)
Lemma Exercise_ex1_idempotent_witness :
  (Exercise.ex1 a3 a4 a0 (Exercise.ex1 a3 a4 a0 mem_3_4_0).2).1 = Ok tt ∧
  ∀ p, (Exercise.ex1 a3 a4 a0 (Exercise.ex1 a3 a4 a0 mem_3_4_0).2).2 p =
       (Exercise.ex1 a3 a4 a0 mem_3_4_0).2 p.
Proof.
  apply (Exercise_ex1_idempotent a3 a4 a0 mem_3_4_0).
  - simpl. lia.
  - simpl. lia.
  - intros i j Hi Hj. simpl in *. lia.
  - intros i j Hi Hj. simpl in *. lia.
Defined.



(** ** [cannot_compile] on dictionaries *)

(** X15. [cannot_compile] returns what the dict holds under ['key'] and
    looks at nothing else: after [d['key'] = v] it returns [v], after
    [del d['key']] it raises [KeyError], and setting or deleting an entry
    under any other key [k] does not change its result. *)
Theorem cannot_compile_lookup (d : gmap string pyobject) (v w : pyobject)
    (k : string) :
  k ≠ "key" →
  cannot_compile (PyDict (<["key" := v]> d)) = Ok v ∧
  cannot_compile (PyDict (delete "key" d)) = Raise KeyError ∧
  cannot_compile (PyDict (<[k := w]> d)) = cannot_compile (PyDict d) ∧
  cannot_compile (PyDict (delete k d)) = cannot_compile (PyDict d).
Proof.
  intros Hk. unfold cannot_compile, getitem_str. repeat split.
  - rewrite lookup_insert_eq. reflexivity.
  - rewrite lookup_delete_eq. reflexivity.
  - rewrite lookup_insert_ne by done. reflexivity.
  - rewrite lookup_delete_ne by done. reflexivity.
Qed.

(** [cannot_compile_lookup] at [dict(key='value')] and the other key
    ['other']. *)
Lemma cannot_compile_lookup_witness :
  cannot_compile (PyDict (<["key" := PyStr "v"]> {[ "key" := PyStr "value" ]})) =
    Ok (PyStr "v") ∧
  cannot_compile (PyDict (delete "key" {[ "key" := PyStr "value" ]})) =
    Raise KeyError ∧
  cannot_compile (PyDict (<["other" := PyStr "w"]> {[ "key" := PyStr "value" ]})) =
    cannot_compile (PyDict {[ "key" := PyStr "value" ]}) ∧
  cannot_compile (PyDict (delete "other" {[ "key" := PyStr "value" ]})) =
    cannot_compile (PyDict {[ "key" := PyStr "value" ]}).
Proof.
  apply (cannot_compile_lookup {[ "key" := PyStr "value" ]}
           (PyStr "v") (PyStr "w") "other").
  discriminate.
Defined.

(** ** The order of the inputs of the handed-out [ex1] *)

Lemma add_comm a b : add a b = add b a.
Proof.
  destruct a as [s|s| |s m e], b as [s'|s'| |s' m' e']; try reflexivity;
    try (destruct s, s'; reflexivity).
  unfold add, SFadd. rewrite (Z.min_comm e e'). f_equal. apply Z.add_comm.
Qed.

(** X16. The handed-out [ex1] does not depend on the order of its inputs:
    for [x] and [y] of one length, [out] at least as long, and no entry of
    [out] written over a cell of [x] or [y] that is read later,
    [ex1(x, y, out)] and [ex1(y, x, out)] both return and leave the same
    memory. *)
Theorem Exercise_ex1_commutes (x y out' : ndarray) (m : memory) :
  shape0 x = shape0 y → (shape0 x ≤ shape0 out')%nat →
  no_overwrite_ahead out' x (shape0 x) → no_overwrite_ahead out' y (shape0 x) →
  (Exercise.ex1 x y out' m).1 = Ok tt ∧ (Exercise.ex1 y x out' m).1 = Ok tt ∧
  ∀ p, (Exercise.ex1 x y out' m).2 p = (Exercise.ex1 y x out' m).2 p.
Proof.
  intros Hxy Ho Sx Sy. rewrite !Exercise_ex1_loop. unfold range.
  destruct (for_range_run_ahead (fun a b => Ok (add a b)) x y out'
              (shape0 x) (shape0 x) 0%nat m)
    as (m1 & Hrun1 & Hout1 & Hframe1); trivial; try lia.
  { intros i _. eauto. }
  destruct (for_range_run_ahead (fun a b => Ok (add a b)) y x out'
              (shape0 y) (shape0 y) 0%nat m)
    as (m2 & Hrun2 & Hout2 & Hframe2); trivial; try lia.
  { rewrite <- Hxy. exact Sy. }
  { rewrite <- Hxy. exact Sx. }
  { intros i _. eauto. }
  rewrite Hrun1, Hrun2. repeat split. cbn. intros p.
  destruct (decide (data out' ≤ p < data out' + shape0 x)%nat) as [Hp|Hp].
  - replace p with (data out' + (p - data out'))%nat by lia.
    specialize (Hout1 (p - data out')%nat ltac:(lia)).
    specialize (Hout2 (p - data out')%nat ltac:(lia)).
    rewrite add_comm in Hout2. unfold cell in *. congruence.
  - rewrite Hframe1, Hframe2 by lia. reflexivity.
Qed.

(** [Exercise_ex1_commutes] at the in-place call on two-element arrays. *)
Lemma Exercise_ex1_commutes_witness :
  (Exercise.ex1 b_0_2 v_3_5 b_0_2 mem_five).1 = Ok tt ∧
  (Exercise.ex1 v_3_5 b_0_2 b_0_2 mem_five).1 = Ok tt ∧
  ∀ p, (Exercise.ex1 b_0_2 v_3_5 b_0_2 mem_five).2 p =
       (Exercise.ex1 v_3_5 b_0_2 b_0_2 mem_five).2 p.
Proof.
  apply (Exercise_ex1_commutes b_0_2 v_3_5 b_0_2 mem_five).
  - reflexivity.
  - simpl. lia.
  - intros i j Hi Hj. simpl in *. lia.
  - intros i j Hi Hj. simpl in *. lia.
Defined.
